(** * blender-optimize.py: the optimisation script as a client of its host

    The script is one procedure, [optimize_model], made of calls into the
    host application (scene operators, the bmesh kernel, the glTF importer
    and exporter), a few reads of host data, integer bookkeeping and
    [print]s.  The embedding keeps that shape:

    - the host is an interface ([Host]): a world type, the reads the script
      performs, and a transition function for every call; a call may raise;
    - the script is written in a small monad that threads the host world,
      accumulates the trace of [print]s and host calls, and propagates the
      first exception;
    - a small concrete host ([Sim]) runs the script on explicit scenes.

    Three choices are made once and used throughout.  A [for] loop over
    [bpy.context.scene.objects] visits, in order, the objects the collection
    held when the loop was entered.  The float literals [0.001], [0.1] and
    [0.01], and the two quotients of lines 93-94, are carried as the
    rationals they denote; nothing below depends on their rounding.  What
    the host does inside a call is left to the host: a statement about a run
    is a statement about the calls made, their arguments and order, the
    lines printed, and the exception that ends the run, if any. *)

From Stdlib Require Import ZArith QArith List String Ascii Bool Lia.
Import ListNotations.

Set Implicit Arguments.

Local Open Scope string_scope.
Local Open Scope list_scope.
Local Open Scope Z_scope.

(** ** Python strings

    Object names are byte strings.  [lower] is [str.lower] on the ASCII
    letters, which is all the helper test can observe: no character outside
    ASCII lower-cases to one of the letters of the word it looks for. *)

Module PyStr.

Definition lower_ascii (c : ascii) : ascii :=
  let n := nat_of_ascii c in
  if ((65 <=? n)%nat && (n <=? 90)%nat)%bool then ascii_of_nat (n + 32) else c.

Fixpoint lower (s : string) : string :=
  match s with
  | EmptyString => EmptyString
  | String c s' => String (lower_ascii c) (lower s')
  end.

(** [contains sub s] is the Python expression [sub in s]. *)
Fixpoint contains (sub s : string) : bool :=
  if prefix sub s then true
  else match s with
       | EmptyString => false
       | String _ s' => contains sub s'
       end.

End PyStr.

(** ** Scene objects and host calls *)

(** A scene object as the script sees it: [obj.name] and [obj.type].  The
    script never assigns either, and a name identifies an object in
    [bpy.data.objects]. *)
Record Obj := { name : string; type : string }.

Definition Obj_eqb (a b : Obj) : bool :=
  (String.eqb (name a) (name b) && String.eqb (type a) (type b))%bool.

(** Keyword arguments of [bpy.ops.export_scene.gltf] (lines 100-109). *)
Record gltf_export := {
  filepath : string;
  export_format : string;
  export_animations : bool;
  export_lights : bool;
  export_cameras : bool;
  export_extras : bool;
  export_draco_mesh_compression_enable : bool;
  export_draco_mesh_compression_level : Z
}.

(** The lines the script prints, by the values they interpolate. *)
Inductive msg :=
| msg_start                                   (* line 9 *)
| msg_original (vertices faces : Z)           (* line 28 *)
| msg_optimizing (n : string)                 (* line 33 *)
| msg_done (n : string)                       (* line 69 *)
| msg_remove_light (n : string)               (* line 73 *)
| msg_remove_helper (n : string)              (* line 78 *)
| msg_optimized (vertices faces : Z)          (* line 90 *)
| msg_reduction (vertex_reduction face_reduction : Q) (* line 96 *)
| msg_saved (path : string)                   (* line 111 *)
| msg_success                                 (* line 114 *)
| msg_more_needed.                            (* line 116 *)

Section Calls.

Variable BM : Type.

(** [bm.verts], [bm.edges], [bm.faces]: the element sequences handed to the
    bmesh operators. *)
Inductive geom :=
| verts_of (bm : BM)
| edges_of (bm : BM)
| faces_of (bm : BM).

(** Every call the script makes into the host, with its arguments. *)
Inductive call :=
| object_select_all (action : string)                       (* line 12 *)
| object_delete (use_global : bool)                         (* line 13 *)
| import_scene_gltf (path : string)                         (* line 17 *)
| set_active (o : Obj)                                      (* line 36 *)
| select_set (o : Obj) (state : bool)                       (* line 37 *)
| object_mode_set (mode : string)                           (* lines 40, 64 *)
| bmesh_from_mesh (o : Obj)                                 (* line 43 *)
| remove_doubles (bm : BM) (verts : geom) (dist : Q)        (* line 46 *)
| dissolve_limit (bm : BM) (angle_limit : Q) (verts edges : geom) (* line 49 *)
| unsubdivide (bm : BM) (verts : geom) (iterations : Z)     (* line 54 *)
| triangulate (bm : BM) (faces : geom)                      (* line 57 *)
| bm_to_mesh (bm : BM) (o : Obj)                            (* line 60 *)
| bm_free (bm : BM)                                         (* line 61 *)
| object_shade_smooth                                       (* line 67 *)
| objects_remove (o : Obj) (do_unlink : bool)               (* lines 74, 79 *)
| export_scene_gltf (args : gltf_export).                   (* line 100 *)

(** What a run does, in order: text on stdout and calls into the host.  A
    call that raises is still in the trace: it was made. *)
Inductive event :=
| Out (m : msg)
| Call (c : call).

End Calls.

Arguments Out {BM} m.
Arguments object_shade_smooth {BM}.
Arguments object_select_all {BM} action.
Arguments object_delete {BM} use_global.
Arguments import_scene_gltf {BM} path.
Arguments set_active {BM} o.
Arguments select_set {BM} o state.
Arguments object_mode_set {BM} mode.
Arguments bmesh_from_mesh {BM} o.
Arguments objects_remove {BM} o do_unlink.
Arguments export_scene_gltf {BM} args.

(** ** The host interface *)

Class Host := {
  World : Type;
  BMesh : Type;
  (** [bpy.context.scene.objects], in iteration order *)
  scene_objects : World -> list Obj;
  (** [len(obj.data.vertices)], [len(obj.data.polygons)] *)
  len_vertices : World -> Obj -> Z;
  len_polygons : World -> Obj -> Z;
  (** [len(bm.faces)] *)
  len_faces : World -> BMesh -> Z;
  (** [bmesh.from_mesh(obj.data)]: the new handle, or an exception *)
  from_mesh : Obj -> World -> option (BMesh * World);
  (** every other call: the next world, or an exception *)
  operator : call BMesh -> World -> option World
}.

(** ** Exceptions, outcomes and the script monad *)

Inductive exn :=
| ZeroDivisionError
| HostError.

Inductive result (A : Type) :=
| Ok (a : A)
| Raise (e : exn).

Arguments Ok {A} a.
Arguments Raise {A} e.

Section Script.

Context {H : Host}.

Record outcome (A : Type) := {
  trace : list (event BMesh);
  world : World;
  value : result A
}.

Definition M (A : Type) : Type := World -> outcome A.

Definition ret {A} (a : A) : M A :=
  fun w => {| trace := []; world := w; value := Ok a |}.

Definition bind {A B} (m : M A) (f : A -> M B) : M B :=
  fun w =>
    let r := m w in
    match value r with
    | Ok a =>
        let r' := f a (world r) in
        {| trace := trace r ++ trace r'; world := world r'; value := value r' |}
    | Raise e => {| trace := trace r; world := world r; value := Raise e |}
    end.

Definition raise {A} (e : exn) : M A :=
  fun w => {| trace := []; world := w; value := Raise e |}.

(** A read of host data: no event, no change. *)
Definition gets {A} (f : World -> A) : M A :=
  fun w => {| trace := []; world := w; value := Ok (f w) |}.

Definition print (m : msg) : M unit :=
  fun w => {| trace := [Out m]; world := w; value := Ok tt |}.

Definition do_call (c : call BMesh) : M unit :=
  fun w =>
    match operator c w with
    | Some w' => {| trace := [Call c]; world := w'; value := Ok tt |}
    | None => {| trace := [Call c]; world := w; value := Raise HostError |}
    end.

Definition do_from_mesh (o : Obj) : M BMesh :=
  fun w =>
    match from_mesh o w with
    | Some (bm, w') =>
        {| trace := [Call (bmesh_from_mesh o)]; world := w'; value := Ok bm |}
    | None =>
        {| trace := [Call (bmesh_from_mesh o)]; world := w;
           value := Raise HostError |}
    end.

End Script.

Declare Scope script_scope.
Delimit Scope script_scope with script.
Notation "x <- m ;; k" := (bind m (fun x => k))
  (at level 61, m at next level, right associativity) : script_scope.
Notation "' p <- m ;; k" := (bind m (fun p => k))
  (at level 61, p pattern, m at next level, right associativity) : script_scope.
Notation "m ;; k" := (bind m (fun _ => k))
  (at level 61, right associativity) : script_scope.

Section Program.

Context {H : Host}.

Local Open Scope script_scope.

(** [for obj in objs: body(obj)], over the objects the collection held when
    the loop was entered; an exception in the body ends the loop. *)
Fixpoint for_each (objs : list Obj) (body : Obj -> M unit) : M unit :=
  match objs with
  | [] => ret tt
  | o :: rest => body o ;; for_each rest body
  end.

(** The two counting loops (lines 20-26 and 82-88): both counters are
    carried through the iteration. *)
Fixpoint count_loop (objs : list Obj) (vertices faces : Z) : M (Z * Z) :=
  match objs with
  | [] => ret (vertices, faces)
  | obj :: rest =>
      if String.eqb (type obj) "MESH" then
        nv <- gets (fun w => len_vertices w obj) ;;
        nf <- gets (fun w => len_polygons w obj) ;;
        count_loop rest (vertices + nv) (faces + nf)
      else count_loop rest vertices faces
  end.

Definition count_meshes : M (Z * Z) :=
  objs <- gets scene_objects ;;
  count_loop objs 0 0.

(** [max(a, b)] of Python: the first argument unless the second is greater. *)
Definition py_max (a b : Q) : Q := if Qlt_le_dec a b then b else a.

(** Line 53, [max(100, len(bm.faces) * 0.01)]; the value as a rational. *)
Definition target_faces_of (n : Z) : Q :=
  py_max (inject_Z 100) (inject_Z n * 0.01)%Q.

(** [(a - b) / a * 100] on Python integers (lines 93, 94): true division
    raises [ZeroDivisionError] on a zero divisor; the quotient as a
    rational. *)
Definition py_truediv (a b : Z) : M Q :=
  if b =? 0 then raise ZeroDivisionError
  else ret (inject_Z a / inject_Z b)%Q.

Definition reduction (original optimized : Z) : M Q :=
  q <- py_truediv (original - optimized) original ;;
  ret (q * inject_Z 100)%Q.

(** Line 76. *)
Definition is_helper_name (n : string) : bool :=
  (PyStr.contains "Helper" n || PyStr.contains "helper" (PyStr.lower n))%bool.

(** Lines 33-69, the body of the [MESH] branch. *)
Definition optimize_mesh (obj : Obj) : M unit :=
  print (msg_optimizing (name obj)) ;;
  do_call (set_active obj) ;;
  do_call (select_set obj true) ;;
  do_call (object_mode_set "EDIT") ;;
  bm <- do_from_mesh obj ;;
  do_call (remove_doubles bm (verts_of bm) 0.001) ;;
  do_call (dissolve_limit bm 0.1 (verts_of bm) (edges_of bm)) ;;
  nfaces <- gets (fun w => len_faces w bm) ;;
  (if 1000 <? nfaces then
     nfaces' <- gets (fun w => len_faces w bm) ;;
     let target_faces := target_faces_of nfaces' in
     do_call (unsubdivide bm (verts_of bm) 3)
   else ret tt) ;;
  do_call (triangulate bm (faces_of bm)) ;;
  do_call (bm_to_mesh bm obj) ;;
  do_call (bm_free bm) ;;
  do_call (object_mode_set "OBJECT") ;;
  do_call object_shade_smooth ;;
  print (msg_done (name obj)).

(** Lines 32-79, the body of the second loop. *)
Definition visit (obj : Obj) : M unit :=
  if String.eqb (type obj) "MESH" then optimize_mesh obj
  else if String.eqb (type obj) "LIGHT" then
    print (msg_remove_light (name obj)) ;;
    do_call (objects_remove obj true)
  else if is_helper_name (name obj) then
    print (msg_remove_helper (name obj)) ;;
    do_call (objects_remove obj true)
  else ret tt.

Definition input_path : string :=
  "/Users/quan/cursor/fellou_hero_try0/LOST_cut2_v5-transformed.glb".

Definition output_path : string :=
  "/Users/quan/cursor/fellou_hero_try0/v5-optimized-blender.glb".

(** Lines 8-116. *)
Definition optimize_model : M unit :=
  print msg_start ;;
  do_call (object_select_all "SELECT") ;;
  do_call (object_delete false) ;;
  do_call (import_scene_gltf input_path) ;;
  '(original_vertices, original_faces) <- count_meshes ;;
  print (msg_original original_vertices original_faces) ;;
  objs <- gets scene_objects ;;
  for_each objs visit ;;
  '(optimized_vertices, optimized_faces) <- count_meshes ;;
  print (msg_optimized optimized_vertices optimized_faces) ;;
  vertex_reduction <- reduction original_vertices optimized_vertices ;;
  face_reduction <- reduction original_faces optimized_faces ;;
  print (msg_reduction vertex_reduction face_reduction) ;;
  do_call (export_scene_gltf
             {| filepath := output_path;
                export_format := "GLB";
                export_animations := true;
                export_lights := false;
                export_cameras := false;
                export_extras := false;
                export_draco_mesh_compression_enable := true;
                export_draco_mesh_compression_level := 6 |}) ;;
  print (msg_saved output_path) ;;
  if optimized_vertices <=? 120000 then print msg_success
  else print msg_more_needed.

(** The procedure with line 53, the computation of [target_faces], taken
    out, and nothing else changed. *)
Definition optimize_mesh_without_target (obj : Obj) : M unit :=
  print (msg_optimizing (name obj)) ;;
  do_call (set_active obj) ;;
  do_call (select_set obj true) ;;
  do_call (object_mode_set "EDIT") ;;
  bm <- do_from_mesh obj ;;
  do_call (remove_doubles bm (verts_of bm) 0.001) ;;
  do_call (dissolve_limit bm 0.1 (verts_of bm) (edges_of bm)) ;;
  nfaces <- gets (fun w => len_faces w bm) ;;
  (if 1000 <? nfaces then do_call (unsubdivide bm (verts_of bm) 3)
   else ret tt) ;;
  do_call (triangulate bm (faces_of bm)) ;;
  do_call (bm_to_mesh bm obj) ;;
  do_call (bm_free bm) ;;
  do_call (object_mode_set "OBJECT") ;;
  do_call object_shade_smooth ;;
  print (msg_done (name obj)).

Definition visit_without_target (obj : Obj) : M unit :=
  if String.eqb (type obj) "MESH" then optimize_mesh_without_target obj
  else if String.eqb (type obj) "LIGHT" then
    print (msg_remove_light (name obj)) ;;
    do_call (objects_remove obj true)
  else if is_helper_name (name obj) then
    print (msg_remove_helper (name obj)) ;;
    do_call (objects_remove obj true)
  else ret tt.

Definition optimize_model_without_target : M unit :=
  print msg_start ;;
  do_call (object_select_all "SELECT") ;;
  do_call (object_delete false) ;;
  do_call (import_scene_gltf input_path) ;;
  '(original_vertices, original_faces) <- count_meshes ;;
  print (msg_original original_vertices original_faces) ;;
  objs <- gets scene_objects ;;
  for_each objs visit_without_target ;;
  '(optimized_vertices, optimized_faces) <- count_meshes ;;
  print (msg_optimized optimized_vertices optimized_faces) ;;
  vertex_reduction <- reduction original_vertices optimized_vertices ;;
  face_reduction <- reduction original_faces optimized_faces ;;
  print (msg_reduction vertex_reduction face_reduction) ;;
  do_call (export_scene_gltf
             {| filepath := output_path;
                export_format := "GLB";
                export_animations := true;
                export_lights := false;
                export_cameras := false;
                export_extras := false;
                export_draco_mesh_compression_enable := true;
                export_draco_mesh_compression_level := 6 |}) ;;
  print (msg_saved output_path) ;;
  if optimized_vertices <=? 120000 then print msg_success
  else print msg_more_needed.

(** Line 119, the module body: the call takes nothing from the process the
    script runs in. *)
Record Process := {
  argv : list string;
  environ : list (string * string)
}.

Definition script (p : Process) : M unit := optimize_model.

End Program.

(** ** A small concrete host

    Enough of a host to run the script on explicit scenes: objects carry
    their vertex and polygon counts, GLB files are lists of objects stored
    by path, and the mesh kernel acts on the counts of the one bmesh being
    edited (unsubdivision halves them at each iteration, triangulation
    splits every face in two, the other operators leave them alone). *)

Module Sim.

Record sobj := {
  sobj_obj : Obj;
  sobj_vertices : Z;
  sobj_polygons : Z;
  sobj_selected : bool
}.

Record sworld := {
  scene : list sobj;
  disk : list (string * list sobj);
  live : option (Z * Z);
  written : list (gltf_export * list Obj)
}.

Definition find_obj (o : Obj) (l : list sobj) : option sobj :=
  find (fun s => Obj_eqb (sobj_obj s) o) l.

Definition with_scene (w : sworld) (l : list sobj) : sworld :=
  {| scene := l; disk := disk w; live := live w; written := written w |}.

Definition with_live (w : sworld) (b : option (Z * Z)) : sworld :=
  {| scene := scene w; disk := disk w; live := b; written := written w |}.

Definition update_obj (o : Obj) (f : sobj -> sobj) (l : list sobj) : list sobj :=
  map (fun s => if Obj_eqb (sobj_obj s) o then f s else s) l.

Fixpoint lookup_file (p : string) (d : list (string * list sobj))
  : option (list sobj) :=
  match d with
  | [] => None
  | (q, objs) :: d' => if String.eqb p q then Some objs else lookup_file p d'
  end.

Definition sim_from_mesh (o : Obj) (w : sworld) : option (unit * sworld) :=
  match find_obj o (scene w) with
  | Some s =>
      if String.eqb (type o) "MESH"
      then Some (tt, with_live w (Some (sobj_vertices s, sobj_polygons s)))
      else None
  | None => None
  end.

Definition on_live (w : sworld) (f : Z * Z -> Z * Z) : option sworld :=
  match live w with
  | Some b => Some (with_live w (Some (f b)))
  | None => None
  end.

Definition sim_operator (c : call unit) (w : sworld) : option sworld :=
  match c with
  | object_select_all action =>
      if String.eqb action "SELECT" then
        Some (with_scene w
                (map (fun s => {| sobj_obj := sobj_obj s;
                                  sobj_vertices := sobj_vertices s;
                                  sobj_polygons := sobj_polygons s;
                                  sobj_selected := true |}) (scene w)))
      else None
  | object_delete _ =>
      Some (with_scene w (filter (fun s => negb (sobj_selected s)) (scene w)))
  | import_scene_gltf p =>
      match lookup_file p (disk w) with
      | Some objs => Some (with_scene w (scene w ++ objs))
      | None => None
      end
  | set_active o =>
      match find_obj o (scene w) with Some _ => Some w | None => None end
  | select_set o b =>
      match find_obj o (scene w) with
      | Some _ =>
          Some (with_scene w
                  (update_obj o
                     (fun s => {| sobj_obj := sobj_obj s;
                                  sobj_vertices := sobj_vertices s;
                                  sobj_polygons := sobj_polygons s;
                                  sobj_selected := b |}) (scene w)))
      | None => None
      end
  | object_mode_set _ => Some w
  | bmesh_from_mesh o =>
      match sim_from_mesh o w with Some (_, w') => Some w' | None => None end
  | remove_doubles _ _ _ => on_live w (fun b => b)
  | dissolve_limit _ _ _ _ => on_live w (fun b => b)
  | unsubdivide _ _ n =>
      on_live w (fun b => (Z.shiftr (fst b) n, Z.shiftr (snd b) n))
  | triangulate _ _ => on_live w (fun b => (fst b, 2 * snd b))
  | bm_to_mesh _ o =>
      match live w, find_obj o (scene w) with
      | Some (v, f), Some _ =>
          Some (with_scene w
                  (update_obj o
                     (fun s => {| sobj_obj := sobj_obj s;
                                  sobj_vertices := v;
                                  sobj_polygons := f;
                                  sobj_selected := sobj_selected s |}) (scene w)))
      | _, _ => None
      end
  | bm_free _ =>
      match live w with Some _ => Some (with_live w None) | None => None end
  | object_shade_smooth => Some w
  | objects_remove o _ =>
      match find_obj o (scene w) with
      | Some _ =>
          Some (with_scene w
                  (filter (fun s => negb (Obj_eqb (sobj_obj s) o)) (scene w)))
      | None => None
      end
  | export_scene_gltf args =>
      Some {| scene := scene w; disk := disk w; live := live w;
              written := (args, map sobj_obj (scene w)) :: written w |}
  end.

Definition count_of (f : sobj -> Z) (w : sworld) (o : Obj) : Z :=
  match find_obj o (scene w) with Some s => f s | None => 0 end.

#[export] Instance host : Host := {|
  World := sworld;
  BMesh := unit;
  scene_objects := fun w => map sobj_obj (scene w);
  len_vertices := count_of sobj_vertices;
  len_polygons := count_of sobj_polygons;
  len_faces := fun w _ => match live w with Some b => snd b | None => 0 end;
  from_mesh := sim_from_mesh;
  operator := sim_operator
|}.

Definition mk (n t : string) (v f : Z) : sobj :=
  {| sobj_obj := {| name := n; type := t |};
     sobj_vertices := v; sobj_polygons := f; sobj_selected := false |}.

(** A session whose scene holds the default cube, with one file on disk at
    the path the script reads. *)
Definition session (file : list sobj) : sworld :=
  {| scene := [mk "Cube" "MESH" 8 6];
     disk := [(input_path, file)];
     live := None;
     written := [] |}.

(** The same session once lines 12-17 have run: the cube is gone and the
    scene holds the objects of the file. *)
Definition loaded (file : list sobj) : sworld :=
  {| scene := file;
     disk := [(input_path, file)];
     live := None;
     written := [] |}.

Definition body : Obj := {| name := "Body"; type := "MESH" |}.
Definition sun : Obj := {| name := "Sun"; type := "LIGHT" |}.
Definition rig : Obj := {| name := "rig_HELPER"; type := "EMPTY" |}.
Definition plane : Obj := {| name := "Plane"; type := "MESH" |}.

(** A dense mesh, a light, a small mesh with a helper name, a helper
    empty and a camera. *)
Definition studio_file : list sobj :=
  [mk "Body" "MESH" 5000 4800; mk "Sun" "LIGHT" 0 0;
   mk "HelperMesh" "MESH" 4 1; mk "rig_HELPER" "EMPTY" 0 0;
   mk "Cam" "CAMERA" 0 0].

(** A file with a light and no mesh. *)
Definition lamp_file : list sobj := [mk "Sun" "LIGHT" 0 0].

(** A file with one quad. *)
Definition plane_file : list sobj := [mk "Plane" "MESH" 4 1].

(** A file with an empty mesh next to a cube. *)
Definition mixed_file : list sobj :=
  [mk "Empty" "MESH" 0 0; mk "Box" "MESH" 8 6].

(** The run of the script in a fresh session with [file] at the input
    path. *)
Definition run_on (file : list sobj) : outcome unit :=
  @optimize_model host (session file).

End Sim.

(** ** Vocabulary for runs

    Totals, the pieces of the procedure that the statements below name,
    classes of events, and the shapes a trace can take. *)

Unset Implicit Arguments.

Section RunDefinitions.

Context {H : Host}.

Local Open Scope script_scope.

(** The sum a counting loop computes, over the meshes of a list. *)
Fixpoint mesh_total (len : Obj -> Z) (objs : list Obj) : Z :=
  match objs with
  | [] => 0
  | o :: rest =>
      (if String.eqb (type o) "MESH" then len o else 0) + mesh_total len rest
  end.

Definition total_vertices (w : World) : Z :=
  mesh_total (len_vertices w) (scene_objects w).

Definition total_polygons (w : World) : Z :=
  mesh_total (len_polygons w) (scene_objects w).

(** The world lines 12-17 leave behind, when none of the three calls
    raises. *)
Definition imported (w : World) : option World :=
  match operator (object_select_all "SELECT") w with
  | Some wa =>
      match operator (object_delete false) wa with
      | Some wb => operator (import_scene_gltf input_path) wb
      | None => None
      end
  | None => None
  end.

(** Lines 9-17, when none of the calls raises. *)
Definition head_events : list (event BMesh) :=
  [Out msg_start; Call (object_select_all "SELECT");
   Call (object_delete false); Call (import_scene_gltf input_path)].

(** The keyword arguments of lines 101-108. *)
Definition export_args : gltf_export :=
  {| filepath := output_path;
     export_format := "GLB";
     export_animations := true;
     export_lights := false;
     export_cameras := false;
     export_extras := false;
     export_draco_mesh_compression_enable := true;
     export_draco_mesh_compression_level := 6 |}.

(** Lines 82-116 as an action of their own: what [optimize_model] does
    after its second loop, given the counts taken before it. *)
Definition epilogue (original_vertices original_faces : Z) : M unit :=
  '(optimized_vertices, optimized_faces) <- count_meshes ;;
  print (msg_optimized optimized_vertices optimized_faces) ;;
  vertex_reduction <- reduction original_vertices optimized_vertices ;;
  face_reduction <- reduction original_faces optimized_faces ;;
  print (msg_reduction vertex_reduction face_reduction) ;;
  do_call (export_scene_gltf export_args) ;;
  print (msg_saved output_path) ;;
  if optimized_vertices <=? 120000 then print msg_success
  else print msg_more_needed.

(** Lines 113-116. *)
Definition advisory (optimized_vertices : Z) : msg :=
  if optimized_vertices <=? 120000 then msg_success else msg_more_needed.

(** The value of lines 93-94 when the divisor is not zero. *)
Definition percent (original optimized : Z) : Q :=
  ((inject_Z (original - optimized) / inject_Z original) * inject_Z 100)%Q.

(** [pre t r]: the outcome [r] reached after the events [t]. *)
Definition pre {A} (t : list (event BMesh)) (r : outcome A) : outcome A :=
  {| trace := t ++ trace r; world := world r; value := value r |}.

(** Lines 33-49: up to the test of line 52. *)
Definition upto_check (obj : Obj) : M BMesh :=
  print (msg_optimizing (name obj)) ;;
  do_call (set_active obj) ;;
  do_call (select_set obj true) ;;
  do_call (object_mode_set "EDIT") ;;
  bm <- do_from_mesh obj ;;
  do_call (remove_doubles bm (verts_of bm) 0.001) ;;
  do_call (dissolve_limit bm 0.1 (verts_of bm) (edges_of bm)) ;;
  ret bm.

(** Lines 57-69: after the conditional. *)
Definition after_check (obj : Obj) (bm : BMesh) : M unit :=
  do_call (triangulate bm (faces_of bm)) ;;
  do_call (bm_to_mesh bm obj) ;;
  do_call (bm_free bm) ;;
  do_call (object_mode_set "OBJECT") ;;
  do_call object_shade_smooth ;;
  print (msg_done (name obj)).

(** The events of [upto_check], of the conditional, and of [after_check],
    when no call raises. *)
Definition check_events (obj : Obj) (bm : BMesh) : list (event BMesh) :=
  [Out (msg_optimizing (name obj));
   Call (set_active obj);
   Call (select_set obj true);
   Call (object_mode_set "EDIT");
   Call (bmesh_from_mesh obj);
   Call (remove_doubles bm (verts_of bm) 0.001);
   Call (dissolve_limit bm 0.1 (verts_of bm) (edges_of bm))].

Definition unsubdivide_events (bm : BMesh) (big : bool)
  : list (event BMesh) :=
  if big then [Call (unsubdivide bm (verts_of bm) 3)] else [].

Definition after_events (obj : Obj) (bm : BMesh) : list (event BMesh) :=
  [Call (triangulate bm (faces_of bm));
   Call (bm_to_mesh bm obj);
   Call (bm_free bm);
   Call (object_mode_set "OBJECT");
   Call object_shade_smooth;
   Out (msg_done (name obj))].

(** The events of one completed pass over a mesh. *)
Definition mesh_events (obj : Obj) (bm : BMesh) (big : bool)
  : list (event BMesh) :=
  check_events obj bm ++ unsubdivide_events bm big ++ after_events obj bm.

(** Classes of events. *)
Definition is_removal (e : event BMesh) : bool :=
  match e with Call (objects_remove _ _) => true | _ => false end.

Definition is_export (e : event BMesh) : bool :=
  match e with Call (export_scene_gltf _) => true | _ => false end.



(** What the second loop can print and call. *)
Definition loop_event (e : event BMesh) : bool :=
  match e with
  | Out (msg_optimizing _) | Out (msg_done _)
  | Out (msg_remove_light _) | Out (msg_remove_helper _) => true
  | Out _ => false
  | Call (object_select_all _) | Call (object_delete _)
  | Call (import_scene_gltf _) | Call (export_scene_gltf _) => false
  | Call _ => true
  end.


(** A trace in which every removal is the second step of the light branch
    or of the helper branch, taken for an object that satisfies the tests
    leading to that branch. *)
Inductive tagged : list (event BMesh) -> Prop :=
| tagged_nil : tagged []
| tagged_other e t :
    is_removal e = false -> tagged t -> tagged (e :: t)
| tagged_light o t :
    type o = "LIGHT" -> tagged t ->
    tagged (Out (msg_remove_light (name o))
              :: Call (objects_remove o true) :: t)
| tagged_helper o t :
    type o <> "MESH" -> type o <> "LIGHT" ->
    is_helper_name (name o) = true -> tagged t ->
    tagged (Out (msg_remove_helper (name o))
              :: Call (objects_remove o true) :: t).

(** Every unsubdivision the mesh branch asks for is over all the vertices
    of the bmesh, for three iterations. *)
Definition unsubdivide_thrice (e : event BMesh) : Prop :=
  match e with
  | Call (unsubdivide bm verts iterations) =>
      verts = verts_of bm /\ iterations = 3
  | _ => True
  end.

Section RunOf.

Variable w : World.

(** The second loop (lines 31-79), run in the world the import left. *)
Definition loop_of (w1 : World) : outcome unit :=
  for_each (scene_objects w1) visit w1.

(** The trace up to the end of the second loop. *)
Definition before_epilogue (w1 : World) : list (event BMesh) :=
  head_events
  ++ Out (msg_original (total_vertices w1) (total_polygons w1))
  :: trace (loop_of w1).

(** The five ways a run from [w] can go: a call of lines 12-17 raises; a
    call in the second loop raises; line 93 or 94 divides by zero; the
    exporter raises; the run completes. *)
Inductive run_of : outcome unit -> Prop :=
| run_import_raises k w' :
    imported w = None ->
    run_of {| trace := firstn k head_events; world := w';
              value := Raise HostError |}
| run_loop_raises w1 :
    imported w = Some w1 ->
    value (loop_of w1) = Raise HostError ->
    run_of {| trace := before_epilogue w1; world := world (loop_of w1);
              value := Raise HostError |}
| run_division_raises w1 :
    imported w = Some w1 ->
    value (loop_of w1) = Ok tt ->
    total_vertices w1 = 0 \/ total_polygons w1 = 0 ->
    let w2 := world (loop_of w1) in
    run_of {| trace := before_epilogue w1
                       ++ [Out (msg_optimized (total_vertices w2)
                                              (total_polygons w2))];
              world := w2; value := Raise ZeroDivisionError |}
| run_export_raises w1 :
    imported w = Some w1 ->
    value (loop_of w1) = Ok tt ->
    total_vertices w1 <> 0 -> total_polygons w1 <> 0 ->
    let w2 := world (loop_of w1) in
    operator (export_scene_gltf export_args) w2 = None ->
    run_of {| trace := before_epilogue w1
                       ++ [Out (msg_optimized (total_vertices w2)
                                              (total_polygons w2));
                           Out (msg_reduction
                                  (percent (total_vertices w1)
                                           (total_vertices w2))
                                  (percent (total_polygons w1)
                                           (total_polygons w2)));
                           Call (export_scene_gltf export_args)];
              world := w2; value := Raise HostError |}
| run_completes w1 w3 :
    imported w = Some w1 ->
    value (loop_of w1) = Ok tt ->
    total_vertices w1 <> 0 -> total_polygons w1 <> 0 ->
    let w2 := world (loop_of w1) in
    operator (export_scene_gltf export_args) w2 = Some w3 ->
    run_of {| trace := before_epilogue w1
                       ++ [Out (msg_optimized (total_vertices w2)
                                              (total_polygons w2));
                           Out (msg_reduction
                                  (percent (total_vertices w1)
                                           (total_vertices w2))
                                  (percent (total_polygons w1)
                                           (total_polygons w2)));
                           Call (export_scene_gltf export_args);
                           Out (msg_saved output_path);
                           Out (advisory (total_vertices w2))];
              world := w3; value := Ok tt |}.

End RunOf.



(** Events that only lines 90-116 produce. *)
Definition final_event (e : event BMesh) : bool :=
  match e with
  | Out (msg_optimized _ _) | Out (msg_reduction _ _) | Out (msg_saved _)
  | Out msg_success | Out msg_more_needed
  | Call (export_scene_gltf _) => true
  | _ => false
  end.

End RunDefinitions.

(** ** More vocabulary: object classes, counts, refused calls *)

Section MoreDefinitions.

Context {H : Host}.

(** The tests of lines 32, 71 and 76 as classes of objects: the objects the
    second loop edits, and the objects it removes. *)
Definition is_mesh (o : Obj) : bool := String.eqb (type o) "MESH".


(** The sum of a count over a list of objects. *)
Definition sum_over (f : Obj -> Z) (objs : list Obj) : Z :=
  fold_right Z.add 0 (map f objs).







Definition is_import (e : event BMesh) : bool :=
  match e with Call (import_scene_gltf _) => true | _ => false end.

Definition is_out (e : event BMesh) : bool :=
  match e with Out _ => true | Call _ => false end.



(** What the visit of [o] may ask of the host about an object: selection
    and editing of [o] when it is a mesh, removal of [o] when it is not. *)
Definition touches_only (o : Obj) (e : event BMesh) : Prop :=
  match e with
  | Call (set_active o') | Call (select_set o' _)
  | Call (bmesh_from_mesh o') | Call (bm_to_mesh _ o') =>
      o' = o /\ type o = "MESH"
  | Call (objects_remove o' _) => o' = o /\ type o <> "MESH"
  | _ => True
  end.

End MoreDefinitions.

(** ** A host that refuses chosen calls

    The concrete host of [Sim], except that the calls picked by [bad]
    raise. *)

Module Faulty.

Definition faulty_operator (bad : call unit -> bool) (c : call unit)
  (w : Sim.sworld) : option Sim.sworld :=
  if bad c then None else Sim.sim_operator c w.

Definition host (bad : call unit -> bool) : Host := {|
  World := Sim.sworld;
  BMesh := unit;
  scene_objects := fun w => map Sim.sobj_obj (Sim.scene w);
  len_vertices := Sim.count_of Sim.sobj_vertices;
  len_polygons := Sim.count_of Sim.sobj_polygons;
  len_faces := fun w _ => match Sim.live w with Some b => snd b | None => 0 end;
  from_mesh := Sim.sim_from_mesh;
  operator := faulty_operator bad
|}.

Definition refuses_triangulate (c : call unit) : bool :=
  match c with triangulate _ _ => true | _ => false end.

End Faulty.

(** ** Laws of the script monad, and the straight-line parts *)

Section Laws.

Context {H : Host}.

Local Open Scope script_scope.

Lemma outcome_eq A (r : outcome A) :
  r = {| trace := trace r; world := world r; value := value r |}.
Proof. destruct r; reflexivity. Qed.

Lemma pre_nil A (r : outcome A) : pre [] r = r.
Proof. destruct r; reflexivity. Qed.

Lemma pre_pre A t t' (r : outcome A) : pre t (pre t' r) = pre (t ++ t') r.
Proof. unfold pre; cbn. now rewrite app_assoc. Qed.

Lemma bind_pure A B (m : M A) (k : A -> M B) a w :
  m w = {| trace := []; world := w; value := Ok a |} ->
  bind m k w = k a w.
Proof. intros E. unfold bind. rewrite E; cbn. now destruct (k a w). Qed.

Lemma bind_ret A B (a : A) (k : A -> M B) w : bind (ret a) k w = k a w.
Proof. now apply bind_pure. Qed.

Lemma bind_gets A B (f : World -> A) (k : A -> M B) w :
  bind (gets f) k w = k (f w) w.
Proof. now apply bind_pure. Qed.

Lemma bind_print B m (k : unit -> M B) w :
  bind (print m) k w = pre [Out m] (k tt w).
Proof. reflexivity. Qed.

Lemma bind_call B c (k : unit -> M B) w :
  bind (do_call c) k w =
  match operator c w with
  | Some w' => pre [Call c] (k tt w')
  | None => {| trace := [Call c]; world := w; value := Raise HostError |}
  end.
Proof. unfold bind, do_call. now destruct (operator c w). Qed.

Lemma bind_from_mesh B o (k : BMesh -> M B) w :
  bind (do_from_mesh o) k w =
  match from_mesh o w with
  | Some (bm, w') => pre [Call (bmesh_from_mesh o)] (k bm w')
  | None => {| trace := [Call (bmesh_from_mesh o)]; world := w;
               value := Raise HostError |}
  end.
Proof. unfold bind, do_from_mesh. now destruct (from_mesh o w) as [[]|]. Qed.

Lemma bind_value A B (m : M A) (k : A -> M B) w :
  bind m k w =
  match value (m w) with
  | Ok a => pre (trace (m w)) (k a (world (m w)))
  | Raise e => {| trace := trace (m w); world := world (m w); value := Raise e |}
  end.
Proof. reflexivity. Qed.

Lemma count_loop_run objs : forall v f w,
  count_loop objs v f w =
  {| trace := []; world := w;
     value := Ok (v + mesh_total (len_vertices w) objs,
                  f + mesh_total (len_polygons w) objs) |}.
Proof.
  induction objs as [|o rest IH]; intros v f w; cbn [count_loop mesh_total].
  - unfold ret. now rewrite !Z.add_0_r.
  - destruct (String.eqb (type o) "MESH").
    + rewrite !bind_gets, IH. now rewrite !Z.add_assoc.
    + rewrite IH. reflexivity.
Qed.

Lemma count_meshes_run w :
  count_meshes w =
  {| trace := []; world := w;
     value := Ok (total_vertices w, total_polygons w) |}.
Proof.
  unfold count_meshes. rewrite bind_gets, count_loop_run. reflexivity.
Qed.

Lemma bind_count B (k : Z * Z -> M B) w :
  bind count_meshes k w = k (total_vertices w, total_polygons w) w.
Proof. apply bind_pure, count_meshes_run. Qed.

Lemma bind_reduction B original optimized (k : Q -> M B) w :
  bind (reduction original optimized) k w =
  if original =? 0
  then {| trace := []; world := w; value := Raise ZeroDivisionError |}
  else k (percent original optimized) w.
Proof.
  unfold reduction, py_truediv.
  destruct (original =? 0).
  - reflexivity.
  - unfold bind, ret, percent; cbn. now destruct (k _ w).
Qed.

Lemma epilogue_run v0 f0 w :
  let pv := total_vertices w in
  let pf := total_polygons w in
  epilogue v0 f0 w =
  if ((v0 =? 0) || (f0 =? 0))%bool then
    {| trace := [Out (msg_optimized pv pf)]; world := w;
       value := Raise ZeroDivisionError |}
  else
    match operator (export_scene_gltf export_args) w with
    | Some w' =>
        {| trace := [Out (msg_optimized pv pf);
                     Out (msg_reduction (percent v0 pv) (percent f0 pf));
                     Call (export_scene_gltf export_args);
                     Out (msg_saved output_path);
                     Out (advisory pv)];
           world := w'; value := Ok tt |}
    | None =>
        {| trace := [Out (msg_optimized pv pf);
                     Out (msg_reduction (percent v0 pv) (percent f0 pf));
                     Call (export_scene_gltf export_args)];
           world := w; value := Raise HostError |}
    end.
Proof.
  cbv zeta. unfold epilogue. rewrite bind_count, bind_print, bind_reduction.
  destruct (v0 =? 0); [reflexivity|].
  rewrite bind_reduction.
  destruct (f0 =? 0); [reflexivity|].
  rewrite bind_print, bind_call.
  destruct (operator (export_scene_gltf export_args) w); [|reflexivity].
  rewrite bind_print. unfold advisory.
  destruct (total_vertices w <=? 120000); reflexivity.
Qed.

Lemma optimize_model_run w :
  match imported w with
  | None =>
      exists k, trace (optimize_model w) = firstn k head_events /\
                value (optimize_model w) = Raise HostError
  | Some w1 =>
      let L := for_each (scene_objects w1) visit w1 in
      let v0 := total_vertices w1 in
      let f0 := total_polygons w1 in
      match value L with
      | Raise e =>
          optimize_model w =
          {| trace := head_events ++ Out (msg_original v0 f0) :: trace L;
             world := world L; value := Raise e |}
      | Ok _ =>
          let E := epilogue v0 f0 (world L) in
          optimize_model w =
          {| trace := head_events ++ Out (msg_original v0 f0) :: trace L
                      ++ trace E;
             world := world E; value := value E |}
      end
  end.
Proof.
  unfold imported, optimize_model.
  rewrite bind_print, bind_call.
  destruct (operator (object_select_all "SELECT") w) as [wa|];
    [|exists 2%nat; split; reflexivity].
  rewrite bind_call.
  destruct (operator (object_delete false) wa) as [wb|];
    [|exists 3%nat; split; reflexivity].
  rewrite bind_call.
  destruct (operator (import_scene_gltf input_path) wb) as [w1|];
    [|exists 4%nat; split; reflexivity].
  rewrite bind_count, bind_print, bind_gets, bind_value.
  fold export_args. fold (epilogue (total_vertices w1) (total_polygons w1)).
  destruct (value (for_each (scene_objects w1) visit w1)) as [[]|e];
    reflexivity.
Qed.

Lemma bind_assoc A B C (m : M A) (f : A -> M B) (g : B -> M C) w :
  bind (bind m f) g w = bind m (fun a => bind (f a) g) w.
Proof.
  unfold bind. destruct (m w) as [t w1 [a|e]]; cbn; [|reflexivity].
  destruct (f a w1) as [t' w2 [b|e]]; cbn; [|reflexivity].
  now rewrite app_assoc.
Qed.

Lemma bind_ext A B (m : M A) (f g : A -> M B) w :
  (forall a w', f a w' = g a w') -> bind m f w = bind m g w.
Proof.
  intros E. unfold bind. destruct (value (m w)); [|reflexivity].
  now rewrite E.
Qed.

End Laws.

(** One step of a run: expose the next action of a sequence, and split on
    what the host answers. *)
Ltac run_step :=
  first [ rewrite bind_assoc | rewrite bind_print | rewrite bind_ret
        | rewrite bind_gets | rewrite bind_call | rewrite bind_from_mesh ];
  cbv beta.

Ltac host_split :=
  match goal with
  | |- context [match operator ?c ?w with _ => _ end] =>
      destruct (operator c w) eqn:?
  | |- context [match from_mesh ?o ?w with _ => _ end] =>
      destruct (from_mesh o w) as [[? ?]|] eqn:?
  | |- context [if 1000 <? ?n then _ else _] =>
      destruct (1000 <? n) eqn:?
  end.

Ltac run := repeat (run_step || host_split || (progress (unfold do_call))).

(** ** How a run unfolds *)

Section Runs.

Context {H : Host}.

Local Open Scope script_scope.

(** *** The loop *)

Lemma for_each_cons o rest (body : Obj -> M unit) w :
  for_each (o :: rest) body w =
  match value (body o w) with
  | Ok _ => pre (trace (body o w)) (for_each rest body (world (body o w)))
  | Raise e =>
      {| trace := trace (body o w); world := world (body o w);
         value := Raise e |}
  end.
Proof. reflexivity. Qed.

(** A property of traces that holds of the empty trace and of
    concatenations holds of the loop as soon as it holds of its body. *)
Lemma for_each_inv (P : list (event BMesh) -> Prop) body :
  P [] ->
  (forall t t', P t -> P t' -> P (t ++ t')) ->
  forall objs,
  (forall o w, In o objs -> P (trace (body o w))) ->
  forall w, P (trace (for_each objs body w)).
Proof.
  intros Hnil Happ objs. induction objs as [|o rest IH]; intros Hb w.
  - exact Hnil.
  - rewrite for_each_cons.
    destruct (value (body o w)); cbn.
    + apply Happ; [apply Hb; now left|].
      apply IH. intros; apply Hb; now right.
    + apply Hb; now left.
Qed.

(** A loop that completes ran its body, to completion, on every object, in
    order; its trace is the concatenation of the traces of those runs. *)
Lemma for_each_ok_blocks body objs : forall w,
  value (for_each objs body w) = Ok tt ->
  exists blocks,
    trace (for_each objs body w) = List.concat blocks /\
    Forall2 (fun o b => exists w', b = trace (body o w') /\
                                   value (body o w') = Ok tt)
            objs blocks.
Proof.
  induction objs as [|o rest IH]; intros w.
  - intros _. exists []. split; [reflexivity|constructor].
  - rewrite for_each_cons.
    destruct (value (body o w)) as [[]|e] eqn:E; cbn; [|discriminate].
    intros Hrest. destruct (IH _ Hrest) as (bs & Ht & Hf).
    exists (trace (body o w) :: bs). split.
    + cbn. now rewrite Ht.
    + constructor; [|exact Hf]. now exists w.
Qed.

Lemma Forall2_block A (R : A -> list (event BMesh) -> Prop) l bs :
  Forall2 R l bs ->
  forall o, In o l ->
  exists b before after, R o b /\ List.concat bs = before ++ b ++ after.
Proof.
  induction 1 as [|x b l' bs' Hx _ IH]; intros o Hin; [destruct Hin|].
  destruct Hin as [->|Hin].
  - exists b, [], (List.concat bs'). now split.
  - destruct (IH _ Hin) as (b' & t1 & t2 & Hr & Hc).
    exists b', (b ++ t1), t2. split; [exact Hr|].
    cbn. rewrite Hc. now rewrite app_assoc.
Qed.

(** *** The mesh branch, piece by piece *)

Lemma upto_check_ok o w bm :
  value (upto_check o w) = Ok bm ->
  trace (upto_check o w) = check_events o bm.
Proof.
  unfold upto_check. run; cbn; try discriminate.
  intros E; injection E as ->. reflexivity.
Qed.

Lemma optimize_mesh_bind o w :
  optimize_mesh o w =
  bind (upto_check o)
       (fun bm =>
          nfaces <- gets (fun w => len_faces w bm) ;;
          (if 1000 <? nfaces then
             nfaces' <- gets (fun w => len_faces w bm) ;;
             let target_faces := target_faces_of nfaces' in
             do_call (unsubdivide bm (verts_of bm) 3)
           else ret tt) ;;
          after_check o bm) w.
Proof.
  unfold optimize_mesh, upto_check.
  do 7 (rewrite bind_assoc; apply bind_ext; intros ? ?).
  rewrite bind_ret. reflexivity.
Qed.

Lemma optimize_mesh_eq o w :
  optimize_mesh o w =
  match value (upto_check o w) with
  | Ok bm =>
      let w3 := world (upto_check o w) in
      pre (trace (upto_check o w))
          (if 1000 <? len_faces w3 bm then
             (do_call (unsubdivide bm (verts_of bm) 3) ;; after_check o bm) w3
           else after_check o bm w3)
  | Raise e =>
      {| trace := trace (upto_check o w); world := world (upto_check o w);
         value := Raise e |}
  end.
Proof.
  rewrite optimize_mesh_bind, bind_value.
  destruct (value (upto_check o w)) as [bm|e]; [|reflexivity].
  cbv zeta. f_equal. rewrite bind_gets.
  destruct (1000 <? len_faces (world (upto_check o w)) bm).
  - now rewrite bind_assoc, bind_gets.
  - now rewrite bind_ret.
Qed.

Lemma after_check_ok o bm w :
  value (after_check o bm w) = Ok tt ->
  trace (after_check o bm w) = after_events o bm.
Proof. unfold after_check. run; cbn; try discriminate. reflexivity. Qed.

Lemma optimize_mesh_ok o w :
  value (optimize_mesh o w) = Ok tt ->
  exists bm,
    value (upto_check o w) = Ok bm /\
    trace (optimize_mesh o w) =
    mesh_events o bm (1000 <? len_faces (world (upto_check o w)) bm).
Proof.
  rewrite optimize_mesh_eq.
  destruct (value (upto_check o w)) as [bm|e] eqn:E; [|discriminate].
  cbv zeta. rewrite (upto_check_ok _ _ _ E).
  intros Hv. exists bm. split; [reflexivity|].
  unfold mesh_events, unsubdivide_events.
  destruct (1000 <? len_faces (world (upto_check o w)) bm).
  - revert Hv. rewrite bind_call.
    destruct (operator (unsubdivide bm (verts_of bm) 3) _) as [w'|];
      [|discriminate].
    cbn [pre value trace]. intros Hv. now rewrite (after_check_ok _ _ _ Hv).
  - cbn [pre value trace] in *. now rewrite (after_check_ok _ _ _ Hv).
Qed.

(** *** Classes of events *)

Lemma optimize_mesh_events o w :
  forallb (fun e => loop_event e && negb (is_removal e))%bool
          (trace (optimize_mesh o w)) = true.
Proof. unfold optimize_mesh. run; reflexivity. Qed.

Lemma forallb_weaken A (p q : A -> bool) l :
  (forall a, p a = true -> q a = true) ->
  forallb p l = true -> forallb q l = true.
Proof.
  intros Hpq. rewrite !forallb_forall. intros Hp a Ha. now apply Hpq, Hp.
Qed.

Lemma visit_events o w : forallb loop_event (trace (visit o w)) = true.
Proof.
  unfold visit.
  destruct (String.eqb (type o) "MESH").
  - eapply forallb_weaken; [|apply optimize_mesh_events].
    intros a Ha. now apply andb_true_iff in Ha.
  - destruct (String.eqb (type o) "LIGHT"); [run; reflexivity|].
    destruct (is_helper_name (name o)); run; reflexivity.
Qed.

Lemma loop_events objs w :
  forallb loop_event (trace (for_each objs visit w)) = true.
Proof.
  apply for_each_inv with (P := fun t => forallb loop_event t = true).
  - reflexivity.
  - intros t t' Ht Ht'. now rewrite forallb_app, Ht, Ht'.
  - intros o w' _. apply visit_events.
Qed.

Lemma loop_event_in objs w e :
  In e (trace (for_each objs visit w)) -> loop_event e = true.
Proof.
  intros Hin. pose proof (loop_events objs w) as Hall.
  rewrite forallb_forall in Hall. now apply Hall.
Qed.

(** The loop raises nothing but what the host raises. *)
Lemma upto_check_raises o w e :
  value (upto_check o w) = Raise e -> e = HostError.
Proof. unfold upto_check. run; cbn; congruence. Qed.

Lemma after_check_raises o bm w e :
  value (after_check o bm w) = Raise e -> e = HostError.
Proof. unfold after_check. run; cbn; congruence. Qed.

Lemma visit_raises o w e : value (visit o w) = Raise e -> e = HostError.
Proof.
  unfold visit.
  destruct (String.eqb (type o) "MESH").
  - rewrite optimize_mesh_eq.
    destruct (value (upto_check o w)) as [bm|e'] eqn:E.
    + cbv zeta.
      destruct (1000 <? len_faces (world (upto_check o w)) bm).
      * rewrite bind_call.
        destruct (operator _ _); cbn; [apply after_check_raises|congruence].
      * cbn. apply after_check_raises.
    + cbn. intros [= <-]. eapply upto_check_raises, E.
  - destruct (String.eqb (type o) "LIGHT"); [run; cbn; congruence|].
    destruct (is_helper_name (name o)); run; cbn; congruence.
Qed.

Lemma loop_raises objs : forall w e,
  value (for_each objs visit w) = Raise e -> e = HostError.
Proof.
  induction objs as [|o rest IH]; intros w e.
  - discriminate.
  - rewrite for_each_cons.
    destruct (value (visit o w)) eqn:E; cbn.
    + apply IH.
    + intros [= <-]. eapply visit_raises, E.
Qed.

(** *** Completed visits *)



(** *** Removals carry the mark of their branch *)

Lemma tagged_app t t' : tagged t -> tagged t' -> tagged (t ++ t').
Proof.
  induction 1; intros Ht'; cbn.
  - exact Ht'.
  - apply tagged_other; auto.
  - apply tagged_light; auto.
  - apply tagged_helper; auto.
Qed.

Lemma tagged_quiet t :
  (forall e, In e t -> is_removal e = false) -> tagged t.
Proof.
  induction t as [|e t IH]; intros Hq; constructor.
  - apply Hq. now left.
  - apply IH. intros; apply Hq. now right.
Qed.

Lemma visit_tagged o w : tagged (trace (visit o w)).
Proof.
  unfold visit.
  destruct (String.eqb (type o) "MESH") eqn:Em.
  - apply tagged_quiet. intros e He.
    pose proof (optimize_mesh_events o w) as Hall.
    rewrite forallb_forall in Hall. specialize (Hall _ He).
    apply andb_true_iff in Hall. destruct Hall as [_ Hr].
    now destruct (is_removal e).
  - apply String.eqb_neq in Em.
    destruct (String.eqb (type o) "LIGHT") eqn:El.
    + apply String.eqb_eq in El.
      run; cbn; apply tagged_light; auto; constructor.
    + apply String.eqb_neq in El.
      destruct (is_helper_name (name o)) eqn:Eh.
      * run; cbn; apply tagged_helper; auto; constructor.
      * constructor.
Qed.

Lemma loop_tagged objs w : tagged (trace (for_each objs visit w)).
Proof.
  apply for_each_inv with (P := tagged).
  - constructor.
  - apply tagged_app.
  - intros; apply visit_tagged.
Qed.

Lemma tagged_removal t :
  tagged t ->
  forall t1 o b t2,
    t = t1 ++ Call (objects_remove o b) :: t2 ->
    b = true /\ type o <> "MESH" /\
    ((type o = "LIGHT" /\
      exists t0, t1 = t0 ++ [Out (msg_remove_light (name o))]) \/
     (type o <> "LIGHT" /\ is_helper_name (name o) = true /\
      exists t0, t1 = t0 ++ [Out (msg_remove_helper (name o))])).
Proof.
  induction 1 as [|e t He Ht IH|o' t Hl Ht IH|o' t Hm Hl Hh Ht IH];
    intros t1 o b t2 E.
  - now destruct t1.
  - destruct t1 as [|e1 t1]; cbn in E; injection E as -> E.
    + discriminate.
    + destruct (IH _ _ _ _ E) as (Hb & Hmesh & Hcase).
      repeat split; auto.
      destruct Hcase as [[Hty [t0 ->]]|(Hty & Hn & [t0 ->])];
        [left|right]; repeat split; auto; now exists (e1 :: t0).
  - destruct t1 as [|e1 [|e2 t1]]; cbn in E.
    + discriminate.
    + injection E as <- Eo Eb Et. subst o' b.
      repeat split; [congruence|]. left. split; [exact Hl|now exists []].
    + injection E as <- <- E.
      destruct (IH _ _ _ _ E) as (Hb & Hmesh & Hcase).
      repeat split; auto.
      destruct Hcase as [[Hty [t0 ->]]|(Hty & Hn & [t0 ->])];
        [left|right]; repeat split; auto;
        now exists (Out (msg_remove_light (name o'))
                      :: Call (objects_remove o' true) :: t0).
  - destruct t1 as [|e1 [|e2 t1]]; cbn in E.
    + discriminate.
    + injection E as <- Eo Eb Et. subst o' b.
      repeat split; auto. right. repeat split; auto. now exists [].
    + injection E as <- <- E.
      destruct (IH _ _ _ _ E) as (Hb & Hmesh & Hcase).
      repeat split; auto.
      destruct Hcase as [[Hty [t0 ->]]|(Hty & Hn & [t0 ->])];
        [left|right]; repeat split; auto;
        now exists (Out (msg_remove_helper (name o'))
                      :: Call (objects_remove o' true) :: t0).
Qed.

(** *** The helper test *)

Lemma prefix_lower sub : forall s,
  prefix sub s = true -> prefix (PyStr.lower sub) (PyStr.lower s) = true.
Proof.
  induction sub as [|a sub IH]; intros [|b s]; cbn [prefix PyStr.lower];
    try congruence.
  destruct (ascii_dec a b) as [->|]; [|congruence].
  intros Hp. destruct (ascii_dec _ _); [auto|contradiction].
Qed.

Lemma contains_lower sub s :
  PyStr.contains sub s = true ->
  PyStr.contains (PyStr.lower sub) (PyStr.lower s) = true.
Proof.
  induction s as [|c s IH].
  - destruct sub; cbn; congruence.
  - cbn [PyStr.contains PyStr.lower].
    destruct (prefix sub (String c s)) eqn:E.
    + intros _. apply prefix_lower in E. cbn [PyStr.lower] in E.
      now rewrite E.
    + intros Hc. rewrite (IH Hc).
      destruct (prefix (PyStr.lower sub) _); reflexivity.
Qed.

(** The first disjunct of line 76 adds nothing to the second. *)
Lemma is_helper_name_lower n :
  is_helper_name n = PyStr.contains "helper" (PyStr.lower n).
Proof.
  unfold is_helper_name.
  destruct (PyStr.contains "Helper" n) eqn:E; [|reflexivity].
  apply contains_lower in E. exact (eq_sym E).
Qed.



Lemma optimize_mesh_thrice o w :
  Forall unsubdivide_thrice (trace (optimize_mesh o w)).
Proof.
  unfold optimize_mesh.
  run; cbn [trace pre app print]; repeat constructor.
Qed.

Lemma visit_thrice o w : Forall unsubdivide_thrice (trace (visit o w)).
Proof.
  unfold visit.
  destruct (String.eqb (type o) "MESH"); [apply optimize_mesh_thrice|].
  destruct (String.eqb (type o) "LIGHT");
    [run; cbn [trace pre app]; repeat constructor|].
  destruct (is_helper_name (name o));
    run; cbn [trace pre app ret]; repeat constructor.
Qed.

Lemma loop_thrice objs w :
  Forall unsubdivide_thrice (trace (for_each objs visit w)).
Proof.
  apply for_each_inv with (P := Forall unsubdivide_thrice).
  - constructor.
  - intros t t' Ht Ht'. apply Forall_app. now split.
  - intros; apply visit_thrice.
Qed.

Lemma optimize_mesh_same o w :
  optimize_mesh o w = optimize_mesh_without_target o w.
Proof.
  unfold optimize_mesh, optimize_mesh_without_target.
  do 4 (apply bind_ext; intros ? ?).
  apply bind_ext; intros bm ?.
  do 2 (apply bind_ext; intros ? ?).
  apply bind_ext; intros nfaces ?.
  destruct (1000 <? nfaces); [|reflexivity].
  now rewrite bind_assoc, bind_gets.
Qed.

Lemma visit_same o w : visit o w = visit_without_target o w.
Proof.
  unfold visit, visit_without_target.
  destruct (String.eqb (type o) "MESH"); [apply optimize_mesh_same|].
  reflexivity.
Qed.

Lemma for_each_ext (f g : Obj -> M unit) objs :
  (forall o w, f o w = g o w) ->
  forall w, for_each objs f w = for_each objs g w.
Proof.
  intros E. induction objs as [|o rest IH]; intros w; [reflexivity|].
  cbn [for_each]. unfold bind. rewrite E.
  destruct (value (g o w)); [|reflexivity]. now rewrite IH.
Qed.

(** *** The five ways a run can go *)

Lemma run_cases w : run_of w (optimize_model w).
Proof.
  pose proof (optimize_model_run w) as R.
  destruct (imported w) as [w1|] eqn:Ei.
  - cbv zeta in R. fold (loop_of w1) in R.
    destruct (value (loop_of w1)) as [[]|e] eqn:El.
    + rewrite R, epilogue_run. cbv zeta.
      destruct (total_vertices w1 =? 0) eqn:Ev;
        [|destruct (total_polygons w1 =? 0) eqn:Ef]; cbn [orb trace world value].
      * apply Z.eqb_eq in Ev.
        replace (head_events ++ _ :: _ ++ _) with
          (before_epilogue w1
             ++ [Out (msg_optimized (total_vertices (world (loop_of w1)))
                                    (total_polygons (world (loop_of w1))))])
          by (unfold before_epilogue; now rewrite <- app_assoc).
        apply run_division_raises; auto.
      * apply Z.eqb_eq in Ef.
        replace (head_events ++ _ :: _ ++ _) with
          (before_epilogue w1
             ++ [Out (msg_optimized (total_vertices (world (loop_of w1)))
                                    (total_polygons (world (loop_of w1))))])
          by (unfold before_epilogue; now rewrite <- app_assoc).
        apply run_division_raises; auto.
      * apply Z.eqb_neq in Ev, Ef.
        destruct (operator (export_scene_gltf export_args)
                           (world (loop_of w1))) as [w3|] eqn:Ex;
          cbn [trace world value].
        -- match goal with
           | |- run_of _ {| trace := head_events ++ _ :: _ ++ ?tl |} =>
               replace (head_events ++ _ :: _ ++ tl)
                 with (before_epilogue w1 ++ tl)
                 by (unfold before_epilogue; now rewrite <- app_assoc)
           end.
           apply run_completes; auto.
        -- match goal with
           | |- run_of _ {| trace := head_events ++ _ :: _ ++ ?tl |} =>
               replace (head_events ++ _ :: _ ++ tl)
                 with (before_epilogue w1 ++ tl)
                 by (unfold before_epilogue; now rewrite <- app_assoc)
           end.
           apply run_export_raises; auto.
    + rewrite R. pose proof (loop_raises _ _ _ El) as ->.
      now apply run_loop_raises.
  - destruct R as (k & Ht & Hv).
    rewrite (outcome_eq _ (optimize_model w)), Ht, Hv.
    now apply run_import_raises.
Qed.

End Runs.

(** ** The claims *)

Section Claims.

Context {H : Host}.

Lemma loop_not_final e : loop_event e = true -> final_event e = false.
Proof. destruct e as [[]|[]]; cbn; congruence. Qed.

Lemma head_not_final e : In e head_events -> final_event e = false.
Proof. cbn. intuition (subst; reflexivity). Qed.

Lemma head_prefix_not_final k e :
  In e (firstn k head_events) -> final_event e = false.
Proof.
  intros Hin. apply head_not_final.
  rewrite <- (firstn_skipn k head_events). apply in_or_app. now left.
Qed.

Lemma before_epilogue_not_final w1 e :
  In e (before_epilogue w1) -> final_event e = false.
Proof.
  unfold before_epilogue. rewrite in_app_iff. cbn [In].
  intros [Hh|[<-|Hl]].
  - now apply head_not_final.
  - reflexivity.
  - eapply loop_not_final, loop_event_in, Hl.
Qed.


Lemma export_calls w args :
  In (Call (export_scene_gltf args)) (trace (optimize_model w)) ->
  args = export_args.
Proof.
  destruct (run_cases w) as [k w' Hn|w1 Hi Hl|w1 Hi Hl Hz|
                             w1 Hi Hl Hv Hf w2 Hx|w1 w3 Hi Hl Hv Hf w2 Hx];
    cbn [trace]; intros Hin.
  - now apply head_prefix_not_final in Hin.
  - now apply before_epilogue_not_final in Hin.
  - apply in_app_or in Hin. destruct Hin as [Hin|Hin].
    + now apply before_epilogue_not_final in Hin.
    + cbn in Hin. intuition discriminate.
  - apply in_app_or in Hin. destruct Hin as [Hin|Hin].
    + now apply before_epilogue_not_final in Hin.
    + cbn in Hin. intuition congruence.
  - apply in_app_or in Hin. destruct Hin as [Hin|Hin].
    + now apply before_epilogue_not_final in Hin.
    + cbn in Hin. intuition congruence.
Qed.



Lemma run_events w e :
  In e (trace (optimize_model w)) ->
  In e head_events \/ (exists w1, In e (trace (loop_of w1))) \/
  (exists v f, e = Out (msg_original v f)) \/ final_event e = true.
Proof.
  assert (Hb : forall w1, In e (before_epilogue w1) ->
                          In e head_events \/
                          (exists w1, In e (trace (loop_of w1))) \/
                          (exists v f, e = Out (msg_original v f)) \/
                          final_event e = true).
  { intros w1. unfold before_epilogue. rewrite in_app_iff. cbn [In].
    intros [Hh|[<-|Hl]].
    - now left.
    - right; right; left. now eexists _, _.
    - right; left. now exists w1. }
  destruct (run_cases w) as [k w' Hn|w1 Hi Hl|w1 Hi Hl Hz|
                             w1 Hi Hl Hv Hf w2 Hx|w1 w3 Hi Hl Hv Hf w2 Hx];
    cbn [trace]; intros Hin.
  - left. rewrite <- (firstn_skipn k head_events). apply in_or_app. now left.
  - eauto.
  - apply in_app_or in Hin. destruct Hin as [Hin|Hin]; [eauto|].
    do 3 right. cbn in Hin. intuition (subst; reflexivity).
  - apply in_app_or in Hin. destruct Hin as [Hin|Hin]; [eauto|].
    do 3 right. cbn in Hin. intuition (subst; reflexivity).
  - apply in_app_or in Hin. destruct Hin as [Hin|Hin]; [eauto|].
    do 3 right. cbn [In] in Hin. unfold advisory in Hin.
    destruct (total_vertices w2 <=? 120000);
      intuition (subst; reflexivity).
Qed.

(** C7.  Whatever the process arguments and environment, every call of
    the importer reads the path of line 16 and every call of the exporter
    writes the path of line 99; the run itself does not depend on them. *)
Theorem paths_are_literals (p p' : Process) w :
  script p w = script p' w /\
  (forall path,
      In (Call (import_scene_gltf path)) (trace (script p w)) ->
      path =
      "/Users/quan/cursor/fellou_hero_try0/LOST_cut2_v5-transformed.glb") /\
  (forall args,
      In (Call (export_scene_gltf args)) (trace (script p w)) ->
      filepath args =
      "/Users/quan/cursor/fellou_hero_try0/v5-optimized-blender.glb").
Proof.
  split; [reflexivity|]. unfold script. split.
  - intros path Hin.
    destruct (run_events _ _ Hin) as [Hh|[(w1 & Hl)|[(v & f & He)|Hf]]];
      try discriminate; [|now apply loop_event_in in Hl].
    cbn [In head_events] in Hh.
    destruct Hh as [Hh|[Hh|[Hh|[Hh|[]]]]]; try discriminate.
    injection Hh as <-. reflexivity.
  - intros args Hin.
    now rewrite (export_calls _ _ Hin).
Qed.

Lemma loop_visits objs w o :
  value (for_each objs visit w) = Ok tt ->
  In o objs ->
  exists w' before after,
    value (visit o w') = Ok tt /\
    trace (for_each objs visit w) = before ++ trace (visit o w') ++ after.
Proof.
  intros Hv Hin.
  destruct (for_each_ok_blocks _ _ _ Hv) as (bs & Ht & Hf).
  destruct (Forall2_block _ _ _ _ Hf _ Hin)
    as (b & t1 & t2 & (w' & -> & Hv') & Hc).
  exists w', t1, t2. split; [exact Hv'|]. now rewrite Ht.
Qed.


Lemma before_epilogue_no_export w1 e :
  In e (before_epilogue w1) -> is_export e = false.
Proof.
  intros Hin. apply before_epilogue_not_final in Hin.
  now destruct e as [[]|[]].
Qed.





(** C9.  The procedure with the computation of [target_faces] removed
    behaves as the procedure does: same trace, same final world, same
    outcome; and every unsubdivision either asks for is over all vertices,
    for three iterations. *)
Theorem target_faces_is_unused w :
  optimize_model w = optimize_model_without_target w /\
  (forall bm verts iterations,
      In (Call (unsubdivide bm verts iterations)) (trace (optimize_model w)) ->
      verts = verts_of bm /\ iterations = 3).
Proof.
  split.
  - unfold optimize_model, optimize_model_without_target.
    do 4 (apply bind_ext; intros ? ?).
    apply bind_ext; intros [v0 f0] ?.
    do 2 (apply bind_ext; intros ? ?).
    rewrite !bind_value.
    rewrite (for_each_ext visit visit_without_target _ visit_same).
    reflexivity.
  - intros bm verts iterations Hin.
    destruct (run_events _ _ Hin) as [Hh|[(w1 & Hl)|[(v & f & He)|Hf]]];
      try discriminate.
    + cbn in Hh. intuition discriminate.
    + pose proof (loop_thrice (scene_objects w1) w1) as Hall.
      rewrite Forall_forall in Hall. exact (Hall _ Hl).
Qed.

Lemma run_tagged w : tagged (trace (optimize_model w)).
Proof.
  assert (Hb : forall w1, tagged (before_epilogue w1)).
  { intros w1. unfold before_epilogue. apply tagged_app.
    - apply tagged_quiet. cbn. intuition (subst; reflexivity).
    - apply tagged_other; [reflexivity|apply loop_tagged]. }
  destruct (run_cases w) as [k w' Hn|w1 Hi Hl|w1 Hi Hl Hz|
                             w1 Hi Hl Hv Hf w2 Hx|w1 w3 Hi Hl Hv Hf w2 Hx];
    cbn [trace].
  - apply tagged_quiet. intros e He.
    assert (Hh : In e head_events)
      by (rewrite <- (firstn_skipn k head_events); apply in_or_app; now left).
    cbn in Hh. intuition (subst; reflexivity).
  - apply Hb.
  - apply tagged_app; [apply Hb|]. repeat constructor.
  - apply tagged_app; [apply Hb|]. repeat constructor.
  - apply tagged_app; [apply Hb|]. repeat constructor.
Qed.

(** C10.  Every removal in a run is the second step of the light branch
    or of the helper branch, taken for an object that is not a mesh: a light
    is removed under the light message whatever its name, and the helper
    message goes with objects that are neither meshes nor lights.  In a run
    that completes, a mesh of the imported scene is optimized, never
    removed, whatever its name. *)
Theorem branch_precedence w :
  (forall t1 o b t2,
      trace (optimize_model w) = t1 ++ Call (objects_remove o b) :: t2 ->
      b = true /\ type o <> "MESH" /\
      ((type o = "LIGHT" /\
        exists t0, t1 = t0 ++ [Out (msg_remove_light (name o))]) \/
       (type o <> "LIGHT" /\ is_helper_name (name o) = true /\
        exists t0, t1 = t0 ++ [Out (msg_remove_helper (name o))]))) /\
  (forall w1 o,
      imported w = Some w1 ->
      value (optimize_model w) = Ok tt ->
      In o (scene_objects w1) ->
      type o = "MESH" ->
      In (Out (msg_optimizing (name o))) (trace (optimize_model w)) /\
      forall b, ~ In (Call (objects_remove o b)) (trace (optimize_model w))).
Proof.
  split.
  - intros t1 o b t2 Ht. exact (tagged_removal _ (run_tagged w) _ _ _ _ Ht).
  - intros w1 o Hi Hv Hin Hm. split.
    + revert Hv.
      destruct (run_cases w) as [k w' Hn|w1' Hi' Hl|w1' Hi' Hl Hz|
                                 w1' Hi' Hl Hv Hf w2 Hx|
                                 w1' w3 Hi' Hl Hv Hf w2 Hx];
        rewrite Hi in *; try discriminate; injection Hi' as <-.
      intros _. cbn [trace].
      destruct (loop_visits _ _ _ Hl Hin) as (w' & t3 & t4 & Hok & Hb).
      assert (Evis : visit o w' = optimize_mesh o w')
        by (unfold visit; apply String.eqb_eq in Hm; now rewrite Hm).
      rewrite Evis in Hok, Hb.
      destruct (optimize_mesh_ok _ _ Hok) as (bm & _ & Hmesh).
      apply in_or_app. left. unfold before_epilogue.
      apply in_or_app. right. right. unfold loop_of. rewrite Hb, Hmesh.
      apply in_or_app. right. apply in_or_app. left. now left.
    + intros b Hr. apply in_split in Hr. destruct Hr as (t1 & t2 & Ht).
      destruct (tagged_removal _ (run_tagged w) _ _ _ _ Ht) as (_ & Hn & _).
      contradiction.
Qed.

End Claims.

(** ** Further properties of the procedure *)

Section Extras.

Context {H : Host}.

(** *** Line 76 *)

Lemma prefix_spec sub : forall s,
  prefix sub s = true <-> exists b, s = (sub ++ b)%string.
Proof.
  induction sub as [|a sub IH]; intros s.
  - split; [intros _; now exists s|intros _; now destruct s].
  - destruct s as [|c s]; cbn [prefix append].
    + split; [discriminate|intros [b Hb]; discriminate].
    + destruct (ascii_dec a c) as [->|Hn].
      * rewrite IH. split; intros [b Hb]; exists b; congruence.
      * split; [discriminate|intros [b Hb]; congruence].
Qed.

Lemma contains_spec sub s :
  PyStr.contains sub s = true <-> exists a b, s = (a ++ sub ++ b)%string.
Proof.
  split.
  - induction s as [|c s IH].
    + cbn [PyStr.contains]. destruct (prefix sub "") eqn:E; [|discriminate].
      intros _. apply prefix_spec in E. destruct E as [b Hb].
      now exists "", b.
    + cbn [PyStr.contains]. destruct (prefix sub (String c s)) eqn:E.
      * intros _. apply prefix_spec in E. destruct E as [b Hb].
        now exists "", b.
      * intros Hc. destruct (IH Hc) as (a & b & ->).
        now exists (String c a), b.
  - intros (a & b & ->). induction a as [|c a IH].
    + cbn [append].
      assert (E : prefix sub (sub ++ b)%string = true)
        by (apply prefix_spec; now exists b).
      destruct (sub ++ b)%string; cbn [PyStr.contains]; now rewrite E.
    + cbn [append PyStr.contains]. rewrite IH.
      now destruct (prefix sub _).
Qed.

(** X1.  The helper test of line 76 holds exactly of the names whose
    lower-casing contains the word [helper]. *)
Theorem helper_test_is_substring_test n :
  is_helper_name n = true <->
  exists a b, PyStr.lower n = (a ++ "helper" ++ b)%string.
Proof. rewrite is_helper_name_lower. apply contains_spec. Qed.


(** X3.  The test ['Helper' in obj.name] of line 76 never decides: a name
    that passes it passes the second test of the line too. *)
Theorem capitalised_test_is_subsumed n :
  PyStr.contains "Helper" n = true ->
  PyStr.contains "helper" (PyStr.lower n) = true.
Proof. intros E. apply contains_lower in E. exact E. Qed.

(** *** The counting loops *)

Lemma mesh_total_sum len objs :
  mesh_total len objs = sum_over len (filter is_mesh objs).
Proof.
  unfold sum_over, is_mesh. induction objs as [|o rest IH]; [reflexivity|].
  cbn [mesh_total filter].
  destruct (String.eqb (type o) "MESH"); cbn [map fold_right]; lia.
Qed.

(** X4.  A counting loop (lines 20-26, 82-88) prints nothing, calls
    nothing, raises nothing and leaves the world as it is; what it returns
    are the sums of [len(obj.data.vertices)] and of
    [len(obj.data.polygons)] over the objects of type MESH, and objects of
    any other type contribute nothing. *)
Theorem counting_is_a_sum w :
  count_meshes w =
  {| trace := []; world := w;
     value := Ok (sum_over (len_vertices w)
                           (filter is_mesh (scene_objects w)),
                  sum_over (len_polygons w)
                           (filter is_mesh (scene_objects w))) |}.
Proof.
  rewrite count_meshes_run. unfold total_vertices, total_polygons.
  now rewrite !mesh_total_sum.
Qed.

(** *** How a run ends *)











(** *** One pass per object *)





(** *** What comes before the import and after the export *)

Lemma split_at_only (p : event BMesh -> bool) a : forall x b t1 y t2,
  a ++ x :: b = t1 ++ y :: t2 ->
  (forall e, In e a -> p e = false) ->
  (forall e, In e b -> p e = false) ->
  p y = true ->
  t1 = a /\ y = x /\ t2 = b.
Proof.
  induction a as [|e a IH]; intros x b t1 y t2 E Ha Hb Hy.
  - destruct t1 as [|e1 t1]; cbn in E; injection E as -> E.
    + auto.
    + rewrite Hb in Hy; [discriminate|].
      rewrite E. apply in_or_app. right. now left.
  - destruct t1 as [|e1 t1]; cbn in E; injection E as -> E.
    + rewrite Ha in Hy; [discriminate|now left].
    + destruct (IH _ _ _ _ _ E) as (-> & -> & ->); auto.
      intros; apply Ha; now right.
Qed.

Lemma loop_no_import objs w e :
  In e (trace (for_each objs visit w)) -> is_import e = false.
Proof.
  intros Hin. apply loop_event_in in Hin. now destruct e as [[]|[]].
Qed.

(** X8.  In any run the importer is called at most once, and what
    precedes that call is the banner and the two calls that clear the scene;
    the exporter is called at most once, and what follows that call is
    printing only. *)
Theorem import_and_export_bracket w :
  (forall t1 path t2,
      trace (optimize_model w) = t1 ++ Call (import_scene_gltf path) :: t2 ->
      t1 = [Out msg_start; Call (object_select_all "SELECT");
            Call (object_delete false)] /\
      forall e, In e t2 -> is_import e = false) /\
  (forall t1 args t2,
      trace (optimize_model w) = t1 ++ Call (export_scene_gltf args) :: t2 ->
      (forall e, In e t1 -> is_export e = false) /\
      forall e, In e t2 -> is_out e = true).
Proof.
  assert (Htail : forall (tl : list (event BMesh)) w1 e,
             (forall e, In e tl -> final_event e = true) ->
             In e (Out (msg_original (total_vertices w1) (total_polygons w1))
                     :: trace (loop_of w1) ++ tl) ->
             is_import e = false).
  { intros tl w1 e Htl [<-|Hin]; [reflexivity|].
    apply in_app_or in Hin. destruct Hin as [Hin|Hin].
    - eapply loop_no_import, Hin.
    - apply Htl in Hin. now destruct e as [[]|[]]. }
  assert (Himp : forall (tl : list (event BMesh)) w1 t1 path t2,
             (forall e, In e tl -> final_event e = true) ->
             before_epilogue w1 ++ tl
             = t1 ++ Call (import_scene_gltf path) :: t2 ->
             t1 = [Out msg_start; Call (object_select_all "SELECT");
                   Call (object_delete false)] /\
             forall e, In e t2 -> is_import e = false).
  { intros tl w1 t1 path t2 Htl E.
    unfold before_epilogue, head_events in E.
    rewrite <- app_assoc in E.
    change ([Out msg_start; Call (object_select_all "SELECT");
             Call (object_delete false); Call (import_scene_gltf input_path)]
              ++ (Out (msg_original (total_vertices w1) (total_polygons w1))
                    :: trace (loop_of w1)) ++ tl)
      with ([Out msg_start; Call (object_select_all "SELECT");
             Call (object_delete false)]
              ++ Call (import_scene_gltf input_path)
              :: Out (msg_original (total_vertices w1) (total_polygons w1))
              :: trace (loop_of w1) ++ tl) in E.
    destruct (split_at_only is_import _ _ _ _ _ _ E) as (-> & _ & ->).
    - cbn. intuition (subst; reflexivity).
    - intros e He. exact (Htail tl w1 e Htl He).
    - reflexivity.
    - split; [reflexivity|]. intros e He. exact (Htail tl w1 e Htl He). }
  assert (Hexp : forall (tl : list (event BMesh)) w1 pre2 t1 args t2,
             (forall e, In e pre2 -> is_export e = false) ->
             (forall e, In e tl -> is_out e = true) ->
             before_epilogue w1
               ++ pre2 ++ Call (export_scene_gltf export_args) :: tl
             = t1 ++ Call (export_scene_gltf args) :: t2 ->
             (forall e, In e t1 -> is_export e = false) /\
             forall e, In e t2 -> is_out e = true).
  { intros tl w1 pre2 t1 args t2 Hp Htl E. rewrite app_assoc in E.
    assert (Ha : forall e, In e (before_epilogue w1 ++ pre2) ->
                           is_export e = false).
    { intros e He. apply in_app_or in He. destruct He as [He|He];
        [now apply (before_epilogue_no_export w1)|now apply Hp]. }
    destruct (split_at_only is_export _ _ _ _ _ _ E) as (-> & _ & ->); auto.
    intros e He. apply Htl in He. now destruct e. }
  destruct (run_cases w) as [k w' Hn|w1 Hi Hl|w1 Hi Hl Hz|
                             w1 Hi Hl Hv Hf w2 Hx|w1 w3 Hi Hl Hv Hf w2 Hx];
    cbn [trace]; split; intros t1 x t2 E.
  - destruct k as [|[|[|[|k]]]]; cbn in E.
    + now destruct t1.
    + destruct t1 as [|? [|? ?]]; discriminate.
    + destruct t1 as [|? [|? [|? ?]]]; discriminate.
    + destruct t1 as [|? [|? [|? [|? ?]]]]; discriminate.
    + rewrite firstn_nil in E.
      destruct t1 as [|? [|? [|? [|? [|? ?]]]]]; try discriminate.
      injection E as <- <- <- _ <-. split; [reflexivity|]. intros e [].
  - assert (Hin : In (Call (export_scene_gltf x)) (firstn k head_events))
      by (rewrite E; apply in_or_app; right; now left).
    now apply head_prefix_not_final in Hin.
  - rewrite <- (app_nil_r (before_epilogue w1)) in E.
    eapply Himp; [|exact E]. intros e [].
  - assert (Hin : In (Call (export_scene_gltf x)) (before_epilogue w1))
      by (rewrite E; apply in_or_app; right; now left).
    now apply before_epilogue_not_final in Hin.
  - eapply Himp; [|exact E]. cbn. intuition (subst; reflexivity).
  - assert (Hin : In (Call (export_scene_gltf x))
                     (before_epilogue w1
                        ++ [Out (msg_optimized (total_vertices w2)
                                               (total_polygons w2))]))
      by (rewrite E; apply in_or_app; right; now left).
    apply in_app_or in Hin. destruct Hin as [Hin|Hin].
    + now apply before_epilogue_not_final in Hin.
    + cbn in Hin. intuition discriminate.
  - eapply Himp; [|exact E]. cbn. intuition (subst; reflexivity).
  - eapply (Hexp [] w1 [_; _]); [| |exact E].
    + cbn. intuition (subst; reflexivity).
    + intros e [].
  - eapply Himp; [|exact E]. cbn. unfold advisory.
    destruct (total_vertices w2 <=? 120000); intuition (subst; reflexivity).
  - eapply (Hexp [_; _] w1 [_; _]); [| |exact E].
    + cbn. intuition (subst; reflexivity).
    + cbn. intuition (subst; reflexivity).
Qed.

(** *** The objects the calls name *)

Lemma visit_touches o w : Forall (touches_only o) (trace (visit o w)).
Proof.
  unfold visit.
  destruct (String.eqb (type o) "MESH") eqn:Em.
  - apply String.eqb_eq in Em. unfold optimize_mesh.
    run; cbn [trace pre app print]; repeat constructor; exact Em.
  - apply String.eqb_neq in Em.
    destruct (String.eqb (type o) "LIGHT");
      [run; cbn [trace pre app]; repeat constructor; exact Em|].
    destruct (is_helper_name (name o));
      run; cbn [trace pre app ret]; repeat constructor; exact Em.
Qed.

Lemma loop_touches objs w :
  Forall (fun e => exists o, In o objs /\ touches_only o e)
         (trace (for_each objs visit w)).
Proof.
  apply for_each_inv
    with (P := Forall (fun e => exists o, In o objs /\ touches_only o e)).
  - constructor.
  - intros t t' Ht Ht'. apply Forall_app. now split.
  - intros o w' Hin. eapply Forall_impl; [|apply visit_touches].
    intros e He. now exists o.
Qed.

(** X9.  The calls of a run name only objects of the imported scene:
    selection, bmesh creation and write-back are asked for meshes only, and
    removal for objects that are not meshes. *)
Theorem calls_name_scene_objects w w1 c :
  imported w = Some w1 ->
  In (Call c) (trace (optimize_model w)) ->
  match c with
  | set_active o | select_set o _ | bmesh_from_mesh o | bm_to_mesh _ o =>
      type o = "MESH" /\ In o (scene_objects w1)
  | objects_remove o _ => type o <> "MESH" /\ In o (scene_objects w1)
  | _ => True
  end.
Proof.
  intros Hi Hin.
  assert (Hloop : In (Call c) (trace (loop_of w1)) ->
                  match c with
                  | set_active o | select_set o _ | bmesh_from_mesh o
                  | bm_to_mesh _ o =>
                      type o = "MESH" /\ In o (scene_objects w1)
                  | objects_remove o _ =>
                      type o <> "MESH" /\ In o (scene_objects w1)
                  | _ => True
                  end).
  { intros Hl. pose proof (loop_touches (scene_objects w1) w1) as Hall.
    rewrite Forall_forall in Hall.
    destruct (Hall _ Hl) as (o & Ho & Ht).
    destruct c; cbn in Ht; try exact I; destruct Ht as [-> Hty]; auto. }
  assert (Hbefore : In (Call c) (before_epilogue w1) ->
                    In (Call c) head_events \/ In (Call c) (trace (loop_of w1))).
  { unfold before_epilogue. rewrite in_app_iff. cbn [In].
    intros [Hh|[Hd|Hl]]; [now left|discriminate|now right]. }
  assert (Hhead : In (Call c) head_events ->
                  match c with
                  | set_active o | select_set o _ | bmesh_from_mesh o
                  | bm_to_mesh _ o =>
                      type o = "MESH" /\ In o (scene_objects w1)
                  | objects_remove o _ =>
                      type o <> "MESH" /\ In o (scene_objects w1)
                  | _ => True
                  end).
  { cbn [In head_events].
    intros [Hd|[E|[E|[E|[]]]]]; [discriminate| | | ];
      injection E as <-; exact I. }
  revert Hin.
  destruct (run_cases w) as [k w' Hn|w1' Hi' Hl|w1' Hi' Hl Hz|
                             w1' Hi' Hl Hv Hf w2 Hx|w1' w3 Hi' Hl Hv Hf w2 Hx];
    rewrite Hi in *; try discriminate; injection Hi' as <-;
    cbn [trace]; intros Hin.
  - destruct (Hbefore Hin) as [Hh|Hl']; [exact (Hhead Hh)|exact (Hloop Hl')].
  - apply in_app_or in Hin. destruct Hin as [Hin|Hin].
    + destruct (Hbefore Hin) as [Hh|Hl']; [exact (Hhead Hh)|exact (Hloop Hl')].
    + cbn in Hin. intuition discriminate.
  - apply in_app_or in Hin. destruct Hin as [Hin|Hin].
    + destruct (Hbefore Hin) as [Hh|Hl']; [exact (Hhead Hh)|exact (Hloop Hl')].
    + cbn in Hin. destruct Hin as [Hd|[Hd|[E|[]]]]; try discriminate.
      injection E as <-. exact I.
  - apply in_app_or in Hin. destruct Hin as [Hin|Hin].
    + destruct (Hbefore Hin) as [Hh|Hl']; [exact (Hhead Hh)|exact (Hloop Hl')].
    + cbn in Hin. destruct Hin as [Hd|[Hd|[E|[Hd|[Hd|[]]]]]];
        try discriminate.
      injection E as <-. exact I.
Qed.

End Extras.

(** ** The script on concrete scenes *)

Module SimRuns.

Import Sim.

(** Lines 12-17 in a fresh session leave the objects of the file. *)
Lemma session_imported file :
  @imported Sim.host (session file) = Some (loaded file).
Proof. reflexivity. Qed.

(** A scene without meshes stops at line 93. *)
Example lamp_run :
  value (run_on lamp_file) = Raise ZeroDivisionError /\
  trace (run_on lamp_file) =
  [Out msg_start;
   Call (object_select_all "SELECT");
   Call (object_delete false);
   Call (import_scene_gltf input_path);
   Out (msg_original 0 0);
   Out (msg_remove_light "Sun");
   Call (objects_remove sun true);
   Out (msg_optimized 0 0)].
Proof. split; vm_compute; reflexivity. Qed.

(** An empty mesh next to a cube does not: the divisor is the total. *)
Example mixed_run :
  @len_vertices Sim.host (loaded mixed_file)
                {| name := "Empty"; type := "MESH" |} = 0 /\
  value (run_on mixed_file) = Ok tt.
Proof. split; vm_compute; reflexivity. Qed.










Lemma paths_are_literals_witness :
  In (Call (import_scene_gltf input_path))
     (trace (script (H:=Sim.host) {| argv := ["--"; "other.glb"]; environ := [] |}
                    (session studio_file))) /\
  input_path =
  "/Users/quan/cursor/fellou_hero_try0/LOST_cut2_v5-transformed.glb".
Proof.
  assert (H1 : In (Call (import_scene_gltf input_path))
                  (trace (script (H:=Sim.host)
                            {| argv := ["--"; "other.glb"]; environ := [] |}
                            (session studio_file))))
    by (vm_compute; tauto).
  split; [exact H1|].
  exact (proj1 (proj2 (@paths_are_literals Sim.host
                         {| argv := ["--"; "other.glb"]; environ := [] |}
                         {| argv := []; environ := [] |}
                         (session studio_file))) _ H1).
Defined.


(** Above and below the threshold. *)
Example dense_mesh_run :
  @len_faces Sim.host
             (world (@upto_check Sim.host body (loaded studio_file))) tt = 4800 /\
  In (Call (unsubdivide tt (verts_of tt) 3))
     (trace (@optimize_mesh Sim.host body (loaded studio_file))).
Proof. split; vm_compute; tauto. Qed.

Example small_mesh_run :
  @len_faces Sim.host
             (world (@upto_check Sim.host plane (loaded plane_file))) tt = 1 /\
  trace (@optimize_mesh Sim.host plane (loaded plane_file)) =
  [Out (msg_optimizing "Plane");
   Call (set_active plane);
   Call (select_set plane true);
   Call (object_mode_set "EDIT");
   Call (bmesh_from_mesh plane);
   Call (remove_doubles tt (verts_of tt) 0.001);
   Call (dissolve_limit tt 0.1 (verts_of tt) (edges_of tt));
   Call (triangulate tt (faces_of tt));
   Call (bm_to_mesh tt plane);
   Call (bm_free tt);
   Call (object_mode_set "OBJECT");
   Call object_shade_smooth;
   Out (msg_done "Plane")].
Proof. split; vm_compute; reflexivity. Qed.

Lemma target_faces_is_unused_witness :
  In (Call (unsubdivide tt (verts_of tt) 3)) (trace (run_on studio_file)) /\
  verts_of tt = verts_of tt /\ 3 = 3.
Proof.
  assert (H1 : In (Call (unsubdivide tt (verts_of tt) 3))
                  (trace (run_on studio_file)))
    by (vm_compute; tauto).
  split; [exact H1|].
  exact (proj2 (@target_faces_is_unused Sim.host (session studio_file))
               _ _ _ H1).
Defined.

Lemma branch_precedence_witness :
  trace (run_on studio_file) =
  firstn 20 (trace (run_on studio_file))
  ++ Call (objects_remove sun true)
  :: skipn 21 (trace (run_on studio_file)) /\
  type sun <> "MESH".
Proof.
  assert (H1 : trace (run_on studio_file) =
               firstn 20 (trace (run_on studio_file))
               ++ Call (objects_remove sun true)
               :: skipn 21 (trace (run_on studio_file)))
    by (vm_compute; reflexivity).
  split; [exact H1|].
  exact (proj1 (proj2 (proj1 (@branch_precedence Sim.host
                                (session studio_file)) _ _ _ _ H1))).
Defined.

End SimRuns.

(** ** The further properties on concrete names and scenes *)

Module ExtraRuns.

Import Sim.

Lemma helper_test_is_substring_test_witness :
  PyStr.lower "rig_HELPER" = ("rig_" ++ "helper" ++ "")%string /\
  is_helper_name "rig_HELPER" = true.
Proof.
  assert (H1 : PyStr.lower "rig_HELPER" = ("rig_" ++ "helper" ++ "")%string)
    by reflexivity.
  split; [exact H1|].
  exact (proj2 (helper_test_is_substring_test "rig_HELPER")
               (ex_intro _ "rig_" (ex_intro _ "" H1))).
Defined.


Lemma capitalised_test_is_subsumed_witness :
  PyStr.contains "Helper" "LeftHelper" = true /\
  PyStr.contains "helper" (PyStr.lower "LeftHelper") = true.
Proof.
  assert (H1 : PyStr.contains "Helper" "LeftHelper" = true) by reflexivity.
  split; [exact H1|].
  exact (capitalised_test_is_subsumed "LeftHelper" H1).
Defined.

(** The helper test on a few names. *)
Example helper_names :
  is_helper_name "Helper" = true /\
  is_helper_name "my_hElPeR.001" = true /\
  is_helper_name "Help" = false /\
  is_helper_name "" = false.
Proof. repeat split. Qed.

(** A pass over the quad on a host whose triangulation raises. *)
Example refused_triangulation_run :
  trace (@optimize_mesh (Faulty.host Faulty.refuses_triangulate) plane
                        (loaded plane_file)) =
  [Out (msg_optimizing "Plane");
   Call (set_active plane);
   Call (select_set plane true);
   Call (object_mode_set "EDIT");
   Call (bmesh_from_mesh plane);
   Call (remove_doubles tt (verts_of tt) 0.001);
   Call (dissolve_limit tt 0.1 (verts_of tt) (edges_of tt));
   Call (triangulate tt (faces_of tt))] /\
  value (@optimize_mesh (Faulty.host Faulty.refuses_triangulate) plane
                        (loaded plane_file)) = Raise HostError /\
  live (world (@optimize_mesh (Faulty.host Faulty.refuses_triangulate) plane
                              (loaded plane_file))) = Some (4, 1).
Proof. repeat split; vm_compute; reflexivity. Qed.


(** The whole run on the same host stops there: nothing is exported. *)
Example refused_triangulation_stops_the_run :
  value (@optimize_model (Faulty.host Faulty.refuses_triangulate)
                         (session studio_file)) = Raise HostError /\
  last (trace (@optimize_model (Faulty.host Faulty.refuses_triangulate)
                               (session studio_file))) (Out msg_start) =
  Call (triangulate tt (faces_of tt)) /\
  written (world (@optimize_model (Faulty.host Faulty.refuses_triangulate)
                                  (session studio_file))) = [].
Proof. repeat split; vm_compute; reflexivity. Qed.


Lemma import_and_export_bracket_witness :
  trace (run_on studio_file) =
  firstn 38 (trace (run_on studio_file))
  ++ Call (export_scene_gltf export_args)
  :: skipn 39 (trace (run_on studio_file)) /\
  forall e, In e (skipn 39 (trace (run_on studio_file))) -> is_out e = true.
Proof.
  assert (H1 : trace (run_on studio_file) =
               firstn 38 (trace (run_on studio_file))
               ++ Call (export_scene_gltf export_args)
               :: skipn 39 (trace (run_on studio_file)))
    by (vm_compute; reflexivity).
  split; [exact H1|].
  exact (proj2 (proj2 (@import_and_export_bracket Sim.host
                         (session studio_file)) _ _ _ H1)).
Defined.

Lemma calls_name_scene_objects_witness :
  @imported Sim.host (session studio_file) = Some (loaded studio_file) /\
  In (Call (objects_remove rig true)) (trace (run_on studio_file)) /\
  type rig <> "MESH" /\
  In rig (@scene_objects Sim.host (loaded studio_file)).
Proof.
  assert (H1 : @imported Sim.host (session studio_file)
               = Some (loaded studio_file)) by reflexivity.
  assert (H2 : In (Call (objects_remove rig true))
                  (trace (run_on studio_file)))
    by (vm_compute; tauto).
  split; [exact H1|]. split; [exact H2|].
  exact (@calls_name_scene_objects Sim.host _ _ _ H1 H2).
Defined.

End ExtraRuns.
